(** * The response parser of [CodeReviewAgent] (src/agents/code_reviewer.py)

    A shallow embedding of [analyze], [_parse_response], [_extract_issues],
    [_extract_suggestions] and [_calculate_complexity], over a model of the
    Python built-ins they call ([str.split], [str.startswith], slicing,
    [str.strip], [int], dict item assignment, [try]/[except]). *)

From Stdlib Require Import ZArith NArith Lia.
From stdpp Require Import base gmap strings list fin_maps.

Local Open Scope N_scope.

(** ** Python values used by the parser *)

Module Py.

(** A Python [str] is a sequence of Unicode code points. *)
Definition codepoint := N.
Definition str := list codepoint.

(** String literals of the source are written with Rocq strings; each
    character of the literal is one code point below 256. *)
Fixpoint lit (s : string) : str :=
  match s with
  | EmptyString => []
  | String c r => Ascii.N_of_ascii c :: lit r
  end.

(** The newline character ['\n']. *)
Definition LF : codepoint := 10.

(** Exceptions raised by the built-ins the parser calls.  All of them are
    subclasses of [Exception]. *)
Inductive exc_class := ValueError | AttributeError | TypeError.

Record exception := Exc { exc_type : exc_class; exc_msg : string }.

(** [isinstance(e, cls)]: none of the three classes derives from another. *)
Definition isinstance (e : exception) (cls : exc_class) : bool :=
  match exc_type e, cls with
  | ValueError, ValueError
  | AttributeError, AttributeError
  | TypeError, TypeError => true
  | _, _ => false
  end.

(** [isinstance(e, Exception)]. *)
Definition is_Exception (e : exception) : bool :=
  match exc_type e with
  | ValueError | AttributeError | TypeError => true
  end.

(** The outcome of evaluating a Python expression or block. *)
Inductive result (A : Type) :=
| Return (a : A)
| Raise (e : exception).
Arguments Return {A} a.
Arguments Raise {A} e.

#[global] Instance result_ret : MRet result := @Return.

#[global] Instance result_bind : MBind result := fun A B k m =>
  match m with
  | Return a => k a
  | Raise e => Raise e
  end.

(** [try: m  except cls: h] *)
Definition try_except {A} (m : result A) (cls : exc_class)
    (h : exception -> result A) : result A :=
  match m with
  | Return a => Return a
  | Raise e => if isinstance e cls then h e else Raise e
  end.

(** A [for] loop whose body may raise. *)
Fixpoint for_each {A S} (xs : list A) (body : S -> A -> result S) (st : S)
    : result S :=
  match xs with
  | [] => Return st
  | x :: xs' => st' ← body st x; for_each xs' body st'
  end.

(** *** [str] methods *)

(** [s.startswith(p)] *)
Fixpoint startswith (s p : str) {struct p} : bool :=
  match p, s with
  | [], _ => true
  | _ :: _, [] => false
  | c :: p', d :: s' => (d =? c) && startswith s' p'
  end.

(** [s.split(sep)] for a one-character separator: the pieces between the
    occurrences of [sep]; never the empty list. *)
Fixpoint split (s : str) (sep : codepoint) : list str :=
  match s with
  | [] => [[]]
  | c :: r =>
      if c =? sep then [] :: split r sep
      else match split r sep with
           | piece :: pieces => (c :: piece) :: pieces
           | [] => [[c]]
           end
  end.

(** [ch.isspace()], CPython's [Py_UNICODE_ISSPACE]: the characters of
    bidirectional type WS, B or S, or of category Zs. *)
Definition isspace (c : codepoint) : bool :=
  ((9 <=? c) && (c <=? 13)) || ((28 <=? c) && (c <=? 32))
  || (c =? 133) || (c =? 160) || (c =? 5760)
  || ((8192 <=? c) && (c <=? 8202))
  || (c =? 8232) || (c =? 8233) || (c =? 8239) || (c =? 8287)
  || (c =? 12288).

Fixpoint lstrip (s : str) : str :=
  match s with
  | c :: r => if isspace c then lstrip r else s
  | [] => []
  end.

Definition rstrip (s : str) : str := reverse (lstrip (reverse s)).

(** [s.strip()] *)
Definition strip (s : str) : str := rstrip (lstrip s).

(** *** [int(s)] for a [str] argument *)

(** First code points of the decimal-digit runs (category Nd) of the Unicode
    database, version 14.0; every run is the ten digits 0 to 9 in order. *)
Definition decimal_zeros : list codepoint :=
  [48; 1632; 1776; 1984; 2406; 2534; 2662; 2790; 2918; 3046; 3174; 3302;
   3430; 3558; 3664; 3792; 3872; 4160; 4240; 6112; 6160; 6470; 6608; 6784;
   6800; 6992; 7088; 7232; 7248; 42528; 43216; 43264; 43472; 43504; 43600;
   44016; 65296; 66720; 68912; 69734; 69872; 69942; 70096; 70384; 70736;
   70864; 71248; 71360; 71472; 71904; 72016; 72784; 73040; 73120; 92768;
   92864; 93008; 120782; 120792; 120802; 120812; 120822; 123200; 123632;
   125264; 130032].

(** [Py_UNICODE_TODECIMAL]: the digit value of a decimal digit. *)
Definition to_decimal (c : codepoint) : option N :=
  match filter (fun z => z <= c < z + 10) decimal_zeros with
  | z :: _ => Some (c - z)
  | [] => None
  end.

(** [_PyUnicode_TransformDecimalAndSpaceToASCII]: code points below 127 are
    kept, other white space becomes a blank, other decimal digits become
    ASCII digits, and the string is cut after a ['?'] at the first code
    point that is none of these. *)
Fixpoint transform_decimal_and_space (s : str) : str :=
  match s with
  | [] => []
  | c :: r =>
      if c <? 127 then c :: transform_decimal_and_space r
      else if isspace c then 32 :: transform_decimal_and_space r
      else match to_decimal c with
           | Some d => (48 + d) :: transform_decimal_and_space r
           | None => [63]
           end
  end.

(** C's [isspace] in the C locale ([Py_ISSPACE]). *)
Definition c_isspace (c : codepoint) : bool :=
  ((9 <=? c) && (c <=? 13)) || (c =? 32).

Fixpoint skip_spaces (s : str) : str :=
  match s with
  | c :: r => if c_isspace c then skip_spaces r else s
  | [] => []
  end.

Definition is_digit (c : codepoint) : bool := (48 <=? c) && (c <=? 57).

(** The scan of [long_from_string_base] in base 10: digits, with single
    underscores allowed between them.  [prev] is the previous character
    (0 at the start), [ndigits] the number of digits and [acc] their value
    so far.  The result is the value, the digit count and the rest of the
    input; [None] when an underscore is doubled or ends the run. *)
Fixpoint scan_digits (s : str) (prev : codepoint) (ndigits : nat) (acc : Z)
    : option (Z * nat * str) :=
  match s with
  | c :: r =>
      if is_digit c then
        scan_digits r c (S ndigits) (10 * acc + Z.of_N (c - 48))%Z
      else if c =? 95 then
        if prev =? 95 then None else scan_digits r c ndigits acc
      else if prev =? 95 then None else Some (acc, ndigits, s)
  | [] => if prev =? 95 then None else Some (acc, ndigits, [])
  end.

(** [sys.get_int_max_str_digits()], at its default. *)
Definition max_str_digits : nat := 4300.

(** Below this many digits the limit is not consulted. *)
Definition max_str_digits_threshold : nat := 640.

(** The messages of [int]'s errors; the quoted argument that ends the first
    one is left out. *)
Definition invalid_literal : exception :=
  Exc ValueError "invalid literal for int() with base 10".

Definition exceeds_limit : exception :=
  Exc ValueError "Exceeds the limit (4300 digits) for integer string conversion".

(** [PyLong_FromString(s, base=10)] after the sign: the digits, then
    nothing but white space. *)
Definition long_from_digits (negative : bool) (s : str) : result Z :=
  match s with
  | 95 :: _ => Raise invalid_literal
  | _ =>
      match scan_digits s 0 0 0%Z with
      | None => Raise invalid_literal
      | Some (v, ndigits, rest) =>
          if ((max_str_digits_threshold <? ndigits)%nat
              && (0 <? max_str_digits)%nat
              && (max_str_digits <? ndigits)%nat)%bool
          then Raise exceeds_limit
          else if (ndigits =? 0)%nat then Raise invalid_literal
          else match skip_spaces rest with
               | [] => Return (if negative then (- v)%Z else v)
               | _ :: _ => Raise invalid_literal
               end
      end
  end.

(** [PyLong_FromString(s, base=10)]: white space, an optional sign, the
    digits. *)
Definition long_from_string (s : str) : result Z :=
  match skip_spaces s with
  | 43 :: r => long_from_digits false r
  | 45 :: r => long_from_digits true r
  | r => long_from_digits false r
  end.

(** [int(s)] *)
Definition int (s : str) : result Z :=
  long_from_string (transform_decimal_and_space s).

End Py.

(** ** The agent's parsing methods *)

Module CodeReviewAgent.
Import Py.

(** The values stored in an issue: a [str] or an [int]. *)
Inductive value :=
| VStr (s : str)
| VInt (n : Z).

(** An issue is a [dict] with [str] keys. *)
Abbreviation dict := (gmap string value).

(** The objects [response] can be bound to: the annotation-free parameter
    receives a [str] from a text-completion model; [bytes] and [None] stand
    for the objects that cannot be split on a [str] separator. *)
Inductive object :=
| PyStr (s : str)
| PyBytes (b : list N)
| PyNone.

(** [response.split(sep)] with a [str] separator. *)
Definition object_split (response : object) (sep : codepoint)
    : result (list str) :=
  match response with
  | PyStr s => Return (split s sep)
  | PyBytes _ =>
      Raise (Exc TypeError "a bytes-like object is required, not 'str'")
  | PyNone =>
      Raise (Exc AttributeError "'NoneType' object has no attribute 'split'")
  end.

(** The truth value of [current_issue]: [None] is false, a [dict] is true
    when it has an item. *)
Definition truthy (current_issue : option dict) : bool :=
  match current_issue with
  | None => false
  | Some d => negb (size d =? 0)%nat
  end.

(** [issues.append(current_issue)].  The appended dict is not assigned to
    again: [current_issue] is rebound to a fresh dict, or the loop is over,
    right after each append. *)
Definition append (issues : list dict) (current_issue : option dict)
    : list dict :=
  match current_issue with
  | Some d => issues ++ [d]
  | None => issues
  end.

(** [current_issue[key] = v] *)
Definition setitem (current_issue : option dict) (key : string) (v : value)
    : result (option dict) :=
  match current_issue with
  | Some d => Return (Some (<[key := v]> d))
  | None =>
      Raise (Exc TypeError "'NoneType' object does not support item assignment")
  end.

(** The local variables [issues] and [current_issue] of [_extract_issues]. *)
Definition locals : Type := list dict * option dict.

(** One iteration of [for line in lines]. *)
Definition loop_body (st : locals) (line : str) : result locals :=
  let '(issues, current_issue) := st in
  if startswith line (lit "Issue:") then
    let issues :=
      if truthy current_issue then append issues current_issue else issues in
    Return (issues, Some {[ "description" := VStr (strip (drop 6 line)) ]})
  else if startswith line (lit "Line:") && truthy current_issue then
    try_except
      (n ← int (strip (drop 5 line));
       current_issue ← setitem current_issue "line" (VInt n);
       Return (issues, current_issue))
      ValueError
      (fun _ =>
         current_issue ← setitem current_issue "line" (VInt 0);
         Return (issues, current_issue))
  else if startswith line (lit "Suggestion:") && truthy current_issue then
    current_issue ←
      setitem current_issue "suggestion" (VStr (strip (drop 11 line)));
    Return (issues, current_issue)
  else Return (issues, current_issue).

(** The block under [try:] in [_extract_issues]. *)
Definition try_block (response : object) : result (list dict) :=
  lines ← object_split response LF;
  st ← for_each lines loop_body ([], None);
  let '(issues, current_issue) := st in
  let issues :=
    if truthy current_issue then append issues current_issue else issues in
  Return issues.

(** What the process has printed, one entry per [print] call. *)
Definition stdout := list string.

(** [_extract_issues(self, response)]; [self] is not used.  The handler
    [except Exception as e] prints and returns the empty list. *)
Definition _extract_issues (response : object) (out : stdout)
    : result (list dict) * stdout :=
  match try_block response with
  | Return issues => (Return issues, out)
  | Raise e =>
      if is_Exception e
      then (Return [], out ++ ["Error parsing issues: " +:+ exc_msg e])
      else (Raise e, out)
  end.

(** [_extract_suggestions(self, response)] *)
Definition _extract_suggestions (response : object) : list dict := [].

(** [_calculate_complexity(self, response)] *)
Definition _calculate_complexity (response : object) : Z := 0.

(** The dict literal returned by [_parse_response]. *)
Record analysis := Analysis {
  issues : list dict;
  suggestions : list dict;
  complexity_score : Z
}.

(** [_parse_response(self, response)]: the three items are evaluated in the
    order of the literal. *)
Definition _parse_response (response : object) (out : stdout)
    : result analysis * stdout :=
  let '(r, out) := _extract_issues response out in
  (i ← r;
   Return (Analysis i (_extract_suggestions response)
             (_calculate_complexity response)),
   out).

End CodeReviewAgent.

(** ** Blocks of lines *)

Module Blocks.
Import Py CodeReviewAgent.

(** The three prefixes the scan looks for. *)
Definition Issue_ : str := lit "Issue:".
Definition Line_ : str := lit "Line:".
Definition Suggestion_ : str := lit "Suggestion:".

Abbreviation is_line l := (startswith l Line_ = true).
Abbreviation not_line l := (startswith l Line_ = false).
Abbreviation is_suggestion l := (startswith l Suggestion_ = true).
Abbreviation not_suggestion l := (startswith l Suggestion_ = false).

(** A block is a line that starts with [Issue:] and the lines after it, up
    to the next such line. *)
Abbreviation block := (str * list str)%type.

Definition block_lines (b : block) : list str := b.1 :: b.2.

Definition flatten (bs : list block) : list str := concat (map block_lines bs).

Definition no_issue_line (ls : list str) : Prop :=
  Forall (fun l => startswith l Issue_ = false) ls.

Definition well_formed (b : block) : Prop :=
  startswith b.1 Issue_ = true /\ no_issue_line b.2.

(** Cuts a list of lines into the lines before the first block, and the
    blocks. *)
Fixpoint group (lines : list str) : list str * list block :=
  match lines with
  | [] => ([], [])
  | l :: ls =>
      let '(pre, bs) := group ls in
      if startswith l Issue_ then ([], (l, pre) :: bs) else (l :: pre, bs)
  end.

(** The value a [Line:] line stores. *)
Definition line_value (line : str) : Z :=
  match int (strip (drop 5 line)) with
  | Return n => n
  | Raise _ => 0
  end.

(** The effect of a line without [Issue:] prefix on an open accumulator. *)
Definition update (d : dict) (line : str) : dict :=
  if startswith line Line_ then <["line" := VInt (line_value line)]> d
  else if startswith line Suggestion_ then
    <["suggestion" := VStr (strip (drop 11 line))]> d
  else d.

(** The accumulator an [Issue:] line opens. *)
Definition new_issue (head : str) : dict :=
  {[ "description" := VStr (strip (drop 6 head)) ]}.

(** The issue of a block. *)
Definition block_issue (b : block) : dict :=
  fold_left update b.2 (new_issue b.1).

(** What is returned after the loop. *)
Definition finish (st : locals) : list dict :=
  if truthy st.2 then append st.1 st.2 else st.1.

(** The accumulator is closed, or holds a description. *)
Definition described (cur : option dict) : Prop :=
  match cur with
  | None => True
  | Some d => is_Some (d !! "description")
  end.

(** ASCII lower case of a code point, and of a string. *)
Definition lower (c : codepoint) : codepoint :=
  if (65 <=? c) && (c <=? 90) then c + 32 else c.

Definition same_letters (v p : str) : Prop := map lower v = map lower p.

End Blocks.

(** ** Responses used as examples *)

Module Responses.
Import Py CodeReviewAgent Blocks.

(** ['\n'.join(lines)], to write responses line by line. *)
Fixpoint unlines (lines : list str) : str :=
  match lines with
  | [] => []
  | [l] => l
  | l :: ls => l ++ LF :: unlines ls
  end.

(** The response of the specification's first example. *)
Definition example_response : str :=
  lit "Issue: foo" ++ [LF] ++ lit "Line: 12" ++ [LF]
  ++ lit "Suggestion: bar" ++ [LF].

(** A response whose block has an unparsable [Line:] line and then a
    parsable one. *)
Definition overwritten_response : str :=
  unlines [lit "Issue: foo"; lit "Line: notanumber"; lit "Line: 5"].

(** A response of two blocks: the first has a line, the second a
    suggestion. *)
Definition two_blocks : list block :=
  [(lit "Issue: a", [lit "Line: 3"]); (lit "Issue: b", [lit "Suggestion: c"])].

(** A block with two [Line:] lines and two [Suggestion:] lines. *)
Definition repeated_fields : list block :=
  [(lit "Issue: a",
    [lit "Line: 1"; lit "Suggestion: x"; lit "Line: 2"; lit "Suggestion: y"])].

End Responses.

(** ** The entry point *)

Module Analyze.
Import Py CodeReviewAgent.

Section chain.

(** [chain.ainvoke({"diff": diff})] for [chain = self.prompt | self.llm],
    awaited to its end: the template and the model are library objects, so
    the call is a parameter.  It may print, return any object, or raise. *)
Variable ainvoke : str -> stdout -> result object * stdout.

(** [analyze(self, diff)]: no handler surrounds the call of the chain. *)
Definition analyze (diff : str) (out : stdout) : result analysis * stdout :=
  let '(r, out) := ainvoke diff out in
  match r with
  | Return response => _parse_response response out
  | Raise e => (Raise e, out)
  end.

End chain.

End Analyze.

(** ** Shapes of lines and of field values *)

Module Shape.
Import Py CodeReviewAgent Blocks.

(** The carriage return ['\r']. *)
Definition CR : codepoint := 13.

(** A line that starts with one of the three prefixes. *)
Definition relevant (l : str) : bool :=
  startswith l Issue_ || startswith l Line_ || startswith l Suggestion_.

(** A string of white space only. *)
Definition blank (ws : str) : Prop := Forall (fun c => isspace c = true) ws.

(** A string that neither starts nor ends with white space. *)
Definition trimmed (t : str) : Prop :=
  (forall c, head t = Some c -> isspace c = false)
  /\ (forall c, last t = Some c -> isspace c = false).

(** The same line, up to white space at its end. *)
Definition padded (l' l : str) : Prop := exists ws, l' = l ++ ws /\ blank ws.

(** An issue as the scan builds it: a trimmed description, possibly an
    integer line and a trimmed suggestion, and no other key. *)
Definition shaped (d : dict) : Prop :=
  (exists t, d !! "description" = Some (VStr t) /\ trimmed t)
  /\ (forall v, d !! "line" = Some v -> exists n, v = VInt n)
  /\ (forall v, d !! "suggestion" = Some v -> exists t, v = VStr t /\ trimmed t)
  /\ (forall k, is_Some (d !! k) ->
      k = "description" \/ k = "line" \/ k = "suggestion").

End Shape.

Import Py CodeReviewAgent Blocks Responses Analyze Shape.

#[global] Arguments startswith : simpl never.
#[global] Arguments strip : simpl never.
#[global] Arguments int : simpl never.
#[global] Arguments split : simpl never.

(** ** Built-ins *)

Lemma startswith_cons (d c : codepoint) (s p : str) :
  startswith (d :: s) (c :: p) = (d =? c) && startswith s p.
Proof. reflexivity. Qed.

Lemma startswith_app (p r : str) : startswith (p ++ r) p = true.
Proof.
  induction p as [|c p IH]; [done|].
  rewrite <- app_comm_cons, startswith_cons, IH.
  by rewrite N.eqb_refl.
Qed.

Lemma startswith_inv (s p : str) :
  startswith s p = true -> exists r, s = p ++ r.
Proof.
  revert s. induction p as [|c p IH]; intros s H.
  - by exists s.
  - destruct s as [|d s]; [done|]. rewrite startswith_cons in H.
    apply andb_prop in H as [Hd Hs]. apply N.eqb_eq in Hd as ->.
    destruct (IH _ Hs) as [r ->]. by exists r.
Qed.

Lemma startswith_head (c d : codepoint) (s p : str) :
  c <> d -> startswith (c :: s) (d :: p) = false.
Proof. intros H. rewrite startswith_cons. by apply N.eqb_neq in H as ->. Qed.

Lemma bind_Return {A B} (a : A) (k : A -> result B) :
  (x ← Return a; k x) = k a.
Proof. reflexivity. Qed.

Lemma for_each_cons {A S} (x : A) (xs : list A) (body : S -> A -> result S) st :
  for_each (x :: xs) body st = (st' ← body st x; for_each xs body st').
Proof. reflexivity. Qed.

Lemma for_each_app {A S} (xs ys : list A) (body : S -> A -> result S) st :
  for_each (xs ++ ys) body st = (st' ← for_each xs body st; for_each ys body st').
Proof.
  revert st. induction xs as [|x xs IH]; intros st; simpl; [done|].
  destruct (body st x) as [st'|e]; simpl; [apply IH | done].
Qed.

(** [int] raises nothing but [ValueError]. *)
Lemma long_from_digits_raises (neg : bool) (s : str) e :
  long_from_digits neg s = Raise e -> exc_type e = ValueError.
Proof.
  unfold long_from_digits. intros H.
  repeat match type of H with
  | Return _ = Raise _ => discriminate H
  | Raise _ = Raise _ => injection H as <-; reflexivity
  | context [match ?x with _ => _ end] => destruct x
  end.
Qed.

Lemma int_raises_ValueError (s : str) e :
  int s = Raise e -> exc_type e = ValueError.
Proof.
  unfold int, long_from_string. intros H.
  repeat match type of H with
  | long_from_digits _ _ = _ => by apply long_from_digits_raises in H
  | context [match ?x with _ => _ end] => destruct x
  end.
Qed.

(** ** One iteration of the loop *)

Lemma described_truthy (d : dict) : described (Some d) -> truthy (Some d) = true.
Proof.
  intros [v Hv]. unfold truthy.
  destruct (size d) eqn:E; [|done].
  apply map_size_empty_iff in E. subst d. by rewrite lookup_empty in Hv.
Qed.

Lemma described_new_issue (head : str) : described (Some (new_issue head)).
Proof. unfold described, new_issue. rewrite lookup_singleton_eq. by eexists. Qed.

Lemma described_update (d : dict) (line : str) :
  described (Some d) -> described (Some (update d line)).
Proof.
  unfold described, update. intros H.
  repeat case_match; [| |done]; by rewrite lookup_insert_ne.
Qed.

Lemma described_fold (d : dict) (body : list str) :
  described (Some d) -> described (Some (fold_left update body d)).
Proof.
  revert d. induction body as [|l body IH]; intros d H; simpl; [done|].
  by apply IH, described_update.
Qed.

(** An [Issue:] line emits the open accumulator and opens a new one. *)
Lemma loop_body_issue (iss : list dict) (cur : option dict) (line : str) :
  startswith line Issue_ = true ->
  loop_body (iss, cur) line
  = Return (finish (iss, cur), Some (new_issue line)).
Proof. intros H. unfold loop_body. fold Issue_. by rewrite H. Qed.

(** The handled [try] around the [int] call. *)
Lemma line_branch (iss : list dict) (d : dict) (line : str) :
  try_except
    (n ← int (strip (drop 5 line));
     current_issue ← setitem (Some d) "line" (VInt n);
     Return (iss, current_issue))
    ValueError
    (fun _ =>
       current_issue ← setitem (Some d) "line" (VInt 0);
       Return (iss, current_issue))
  = Return (iss, Some (<["line" := VInt (line_value line)]> d)).
Proof.
  unfold line_value.
  destruct (int (strip (drop 5 line))) as [n|e] eqn:E; simpl; [done|].
  apply int_raises_ValueError in E.
  unfold isinstance. by rewrite E.
Qed.

(** Any other line updates the open accumulator. *)
Lemma loop_body_open (iss : list dict) (d : dict) (line : str) :
  startswith line Issue_ = false ->
  truthy (Some d) = true ->
  loop_body (iss, Some d) line = Return (iss, Some (update d line)).
Proof.
  intros H T. unfold loop_body, update. fold Issue_ Line_ Suggestion_.
  rewrite H, T, !andb_true_r.
  destruct (startswith line Line_); [apply line_branch|].
  by destruct (startswith line Suggestion_).
Qed.

(** With no accumulator open, a line without [Issue:] prefix does nothing. *)
Lemma loop_body_closed (iss : list dict) (line : str) :
  startswith line Issue_ = false ->
  loop_body (iss, None) line = Return (iss, None).
Proof.
  intros H. unfold loop_body. fold Issue_. rewrite H. simpl.
  by rewrite !andb_false_r.
Qed.

(** A line with none of the prefixes does nothing in any state. *)
Lemma loop_body_other (st : locals) (line : str) :
  startswith line Issue_ = false ->
  startswith line Line_ = false ->
  startswith line Suggestion_ = false ->
  loop_body st line = Return st.
Proof.
  intros H1 H2 H3. destruct st as [iss cur]. unfold loop_body.
  fold Issue_ Line_ Suggestion_. by rewrite H1, H2, H3.
Qed.

(** ** The whole loop *)

Lemma for_each_closed (iss : list dict) (pre : list str) :
  no_issue_line pre ->
  for_each pre loop_body (iss, None) = Return (iss, None).
Proof.
  induction 1 as [|l pre Hl _ IH]; [done|].
  by rewrite for_each_cons, loop_body_closed, bind_Return.
Qed.

Lemma for_each_open (iss : list dict) (d : dict) (body : list str) :
  no_issue_line body ->
  described (Some d) ->
  for_each body loop_body (iss, Some d)
  = Return (iss, Some (fold_left update body d)).
Proof.
  intros Hb. revert d. induction Hb as [|l body Hl _ IH]; intros d Hd.
  - done.
  - rewrite for_each_cons, loop_body_open by auto using described_truthy.
    rewrite bind_Return. by apply IH, described_update.
Qed.

Lemma finish_described (iss : list dict) (cur : option dict) :
  described cur -> finish (iss, cur) = iss ++ option_list cur.
Proof.
  destruct cur as [d|]; intros H; unfold finish; cbn [fst snd].
  - by rewrite (described_truthy d H).
  - cbn. by rewrite app_nil_r.
Qed.

Lemma for_each_blocks (bs : list block) (iss : list dict) (cur : option dict) :
  Forall well_formed bs ->
  described cur ->
  (st ← for_each (flatten bs) loop_body (iss, cur); Return (finish st))
  = Return (iss ++ option_list cur ++ map block_issue bs).
Proof.
  intros Hbs. revert iss cur.
  induction Hbs as [|[head body] bs [Hh Hb] _ IH]; intros iss cur Hc.
  - cbn. by rewrite finish_described, app_nil_r.
  - change (flatten ((head, body) :: bs)) with (head :: body ++ flatten bs).
    simpl in Hh, Hb.
    rewrite for_each_cons, loop_body_issue, bind_Return by done.
    rewrite for_each_app.
    rewrite for_each_open, bind_Return by auto using described_new_issue.
    rewrite IH by apply described_fold, described_new_issue.
    rewrite finish_described by done. cbn [map option_list].
    by rewrite <- !app_assoc.
Qed.

(** The scan of a [str]: one issue per block, in order; lines before the
    first block are dropped. *)
Lemma try_block_blocks (s : str) (pre : list str) (bs : list block) :
  split s LF = pre ++ flatten bs ->
  no_issue_line pre ->
  Forall well_formed bs ->
  try_block (PyStr s) = Return (map block_issue bs).
Proof.
  intros Hs Hpre Hbs. unfold try_block, object_split.
  rewrite bind_Return, Hs.
  rewrite for_each_app, for_each_closed, bind_Return by done.
  pose proof (for_each_blocks bs [] None Hbs I) as H.
  destruct (for_each (flatten bs) loop_body ([], None)) as [[iss cur]|e];
    [|done].
  rewrite !bind_Return in *. injection H as H.
  unfold finish in H. cbn [fst snd] in H. by rewrite H.
Qed.

Lemma extract_issues_blocks (s : str) (pre : list str) (bs : list block) out :
  split s LF = pre ++ flatten bs ->
  no_issue_line pre ->
  Forall well_formed bs ->
  _extract_issues (PyStr s) out = (Return (map block_issue bs), out).
Proof.
  intros Hs Hpre Hbs. unfold _extract_issues.
  by rewrite (try_block_blocks s pre bs).
Qed.

(** Every list of lines is some lines without [Issue:] prefix followed by
    well-formed blocks. *)
Lemma group_spec (lines : list str) :
  lines = (group lines).1 ++ flatten (group lines).2
  /\ no_issue_line (group lines).1
  /\ Forall well_formed (group lines).2.
Proof.
  induction lines as [|l ls (E & Hp & Hb)]; simpl.
  - repeat split; constructor.
  - destruct (group ls) as [pre bs]; simpl in *.
    destruct (startswith l Issue_) eqn:Hl; simpl.
    + repeat split; [by rewrite E | constructor |].
      constructor; [by split | done].
    + repeat split; [by rewrite E | by constructor | done].
Qed.

(** The try block never raises on a [str]. *)
Lemma try_block_str (s : str) :
  try_block (PyStr s) = Return (map block_issue (group (split s LF)).2).
Proof.
  destruct (group_spec (split s LF)) as (E & Hp & Hb).
  by apply (try_block_blocks s (group (split s LF)).1).
Qed.

(** ** The stubs and the top-level handler *)

(** C1: on the response "Issue: foo\nLine: 12\nSuggestion: bar\n" the parse
    returns exactly one issue, with description "foo", line 12 and
    suggestion "bar"; the description and the suggestion are the rest of
    their lines after the prefix, stripped of surrounding white space. *)
Theorem parse_example_response :
  (forall out,
     _parse_response (PyStr example_response) out
     = (Return
          (Analysis
             [ {[ "description" := VStr (lit "foo");
                  "line" := VInt 12;
                  "suggestion" := VStr (lit "bar") ]} ]
             [] 0),
        out))
  /\ split example_response LF
     = [lit "Issue: foo"; lit "Line: 12"; lit "Suggestion: bar"; []]
  /\ strip (drop 6 (lit "Issue: foo")) = lit "foo"
  /\ int (strip (drop 5 (lit "Line: 12"))) = Return 12%Z
  /\ strip (drop 11 (lit "Suggestion: bar")) = lit "bar".
Proof.
  split; [intros out; vm_compute; reflexivity|].
  repeat split; vm_compute; reflexivity.
Qed.

(** [_extract_issues] returns for every response. *)
Lemma extract_issues_returns (response : object) (out : stdout) :
  exists iss out', _extract_issues response out = (Return iss, out').
Proof.
  unfold _extract_issues. destruct response as [s|b|].
  - rewrite try_block_str. eauto.
  - cbn. eauto.
  - cbn. eauto.
Qed.

(** C2: for every response, the empty string included, the parse returns a
    result whose suggestions are the empty list and whose complexity score
    is 0. *)
Theorem stubs_are_constant :
  (forall response out,
     exists r out',
       _parse_response response out = (Return r, out')
       /\ suggestions r = [] /\ complexity_score r = 0%Z)
  /\ (forall out,
        _parse_response (PyStr []) out = (Return (Analysis [] [] 0), out)).
Proof.
  split.
  - intros response out. unfold _parse_response.
    destruct (extract_issues_returns response out) as (iss & out' & ->).
    by eexists _, _.
  - intros out. reflexivity.
Qed.

(** C3: when the scan of a response raises, the handler at the top of
    [_extract_issues] catches the exception and reports it; the caller gets
    the empty list of issues and no exception. *)
Theorem scan_exception_is_caught (response : object) (out : stdout) e :
  try_block response = Raise e ->
  _extract_issues response out
  = (Return [], out ++ ["Error parsing issues: " +:+ exc_msg e])
  /\ _parse_response response out
     = (Return (Analysis [] [] 0),
        out ++ ["Error parsing issues: " +:+ exc_msg e]).
Proof.
  intros H.
  assert (E : _extract_issues response out
              = (Return [], out ++ ["Error parsing issues: " +:+ exc_msg e])).
  { unfold _extract_issues. rewrite H. by destruct e as [[] msg]. }
  split; [done|]. unfold _parse_response. by rewrite E.
Qed.

Lemma scan_exception_is_caught_witness :
  try_block PyNone
  = Raise (Exc AttributeError "'NoneType' object has no attribute 'split'")
  /\ _extract_issues PyNone []
     = (Return [],
        ["Error parsing issues: 'NoneType' object has no attribute 'split'"]).
Proof.
  split; [reflexivity|].
  exact (proj1 (scan_exception_is_caught PyNone [] _ eq_refl)).
Defined.

(** ** The fields of a block's issue *)

Lemma suggestion_not_line (l : str) : is_suggestion l -> not_line l.
Proof. intros H. by apply startswith_inv in H as [r ->]. Qed.

Lemma update_description (d : dict) (l : str) :
  update d l !! "description" = d !! "description".
Proof. unfold update. repeat case_match; by rewrite ?lookup_insert_ne. Qed.

Lemma update_line (d : dict) (l : str) :
  update d l !! "line"
  = if startswith l Line_ then Some (VInt (line_value l)) else d !! "line".
Proof.
  unfold update. destruct (startswith l Line_).
  - by rewrite lookup_insert_eq.
  - case_match; by rewrite ?lookup_insert_ne.
Qed.

Lemma update_suggestion (d : dict) (l : str) :
  update d l !! "suggestion"
  = if startswith l Suggestion_ then Some (VStr (strip (drop 11 l)))
    else d !! "suggestion".
Proof.
  unfold update. destruct (startswith l Suggestion_) eqn:Hs.
  - rewrite (suggestion_not_line l Hs). by rewrite lookup_insert_eq.
  - case_match; by rewrite ?lookup_insert_ne.
Qed.

Lemma fold_update_app (d : dict) (xs ys : list str) :
  fold_left update (xs ++ ys) d = fold_left update ys (fold_left update xs d).
Proof. apply fold_left_app. Qed.

Lemma fold_description (d : dict) (body : list str) :
  fold_left update body d !! "description" = d !! "description".
Proof.
  revert d. induction body as [|l body IH]; intros d; simpl; [done|].
  by rewrite IH, update_description.
Qed.

Lemma fold_line_keep (d : dict) (body : list str) :
  Forall (fun l => not_line l) body ->
  fold_left update body d !! "line" = d !! "line".
Proof.
  intros H. revert d. induction H as [|l body Hl _ IH]; intros d; simpl; [done|].
  by rewrite IH, update_line, Hl.
Qed.

Lemma fold_suggestion_keep (d : dict) (body : list str) :
  Forall (fun l => not_suggestion l) body ->
  fold_left update body d !! "suggestion" = d !! "suggestion".
Proof.
  intros H. revert d. induction H as [|l body Hl _ IH]; intros d; simpl; [done|].
  by rewrite IH, update_suggestion, Hl.
Qed.

Lemma fold_line_None (d : dict) (body : list str) :
  fold_left update body d !! "line" = None
  <-> d !! "line" = None /\ Forall (fun l => not_line l) body.
Proof.
  revert d. induction body as [|l body IH]; intros d; simpl.
  - split; [by split | by intros []].
  - rewrite IH, update_line, Forall_cons.
    destruct (startswith l Line_); intuition congruence.
Qed.

Lemma fold_suggestion_None (d : dict) (body : list str) :
  fold_left update body d !! "suggestion" = None
  <-> d !! "suggestion" = None /\ Forall (fun l => not_suggestion l) body.
Proof.
  revert d. induction body as [|l body IH]; intros d; simpl.
  - split; [by split | by intros []].
  - rewrite IH, update_suggestion, Forall_cons.
    destruct (startswith l Suggestion_); intuition congruence.
Qed.

(** The description of a block's issue comes from its first line. *)
Lemma block_issue_description (b : block) :
  block_issue b !! "description" = Some (VStr (strip (drop 6 b.1))).
Proof.
  unfold block_issue. rewrite fold_description.
  apply lookup_singleton_eq.
Qed.

(** The line of a block's issue comes from its last [Line:] line. *)
Lemma block_issue_line (head : str) (before after : list str) (l : str) :
  is_line l ->
  Forall (fun l' => not_line l') after ->
  block_issue (head, before ++ l :: after) !! "line"
  = Some (VInt (line_value l)).
Proof.
  intros Hl Ha. unfold block_issue. cbn [fst snd].
  rewrite fold_update_app. simpl.
  by rewrite fold_line_keep, update_line, Hl.
Qed.

(** The suggestion of a block's issue comes from its last [Suggestion:]
    line. *)
Lemma block_issue_suggestion (head : str) (before after : list str) (l : str) :
  is_suggestion l ->
  Forall (fun l' => not_suggestion l') after ->
  block_issue (head, before ++ l :: after) !! "suggestion"
  = Some (VStr (strip (drop 11 l))).
Proof.
  intros Hl Ha. unfold block_issue. cbn [fst snd].
  rewrite fold_update_app. simpl.
  by rewrite fold_suggestion_keep, update_suggestion, Hl.
Qed.

Lemma block_issue_line_None (b : block) :
  block_issue b !! "line" = None <-> Forall (fun l => not_line l) b.2.
Proof.
  unfold block_issue. rewrite fold_line_None. unfold new_issue.
  rewrite lookup_singleton_ne by done. tauto.
Qed.

Lemma block_issue_suggestion_None (b : block) :
  block_issue b !! "suggestion" = None
  <-> Forall (fun l => not_suggestion l) b.2.
Proof.
  unfold block_issue. rewrite fold_suggestion_None. unfold new_issue.
  rewrite lookup_singleton_ne by done. tauto.
Qed.

Lemma flatten_app (bs cs : list block) :
  flatten (bs ++ cs) = flatten bs ++ flatten cs.
Proof. unfold flatten. by rewrite map_app, concat_app. Qed.

(** The issue at a position is the issue of the block at that position. *)
Lemma lookup_block_issue (bs : list block) (i : nat) (b : block) (d : dict) :
  bs !! i = Some b -> map block_issue bs !! i = Some d -> d = block_issue b.
Proof.
  intros Hb Hd. change (map block_issue bs) with (block_issue <$> bs) in Hd.
  rewrite list_lookup_fmap, Hb in Hd. simpl in Hd. congruence.
Qed.

Lemma line_not_issue (l : str) : is_line l -> startswith l Issue_ = false.
Proof. intros H. by apply startswith_inv in H as [r ->]. Qed.

(** ** Recoverable failures *)

(** C4, as stated, fails: an unparsable [Line:] line in an open block does
    not make the block's issue have line 0 when a later [Line:] line of the
    same block parses; here the issue has line 5. *)
Lemma unparsable_line_then_parsable_line :
  split overwritten_response LF
  = [] ++ flatten
            [(lit "Issue: foo", [lit "Line: notanumber"; lit "Line: 5"])]
  /\ startswith (lit "Line: notanumber") Line_ = true
  /\ int (strip (drop 5 (lit "Line: notanumber"))) = Raise invalid_literal
  /\ _extract_issues (PyStr overwritten_response) []
     = (Return [ {[ "description" := VStr (lit "foo"); "line" := VInt 5 ]} ],
        [])
  /\ ({[ "description" := VStr (lit "foo"); "line" := VInt 5 ]} : dict)
       !! "line" <> Some (VInt 0).
Proof.
  repeat split; try (vm_compute; reflexivity).
  vm_compute. discriminate.
Qed.

(** C4, amended: an unparsable [Line:] line in an open block is handled in
    the iteration that reads it, which stores line 0 and raises nothing; the
    scan goes on, every block still yields its issue and nothing is
    printed; the block's issue has line 0 when no later [Line:] line of the
    block follows. *)
Theorem unparsable_line_defaults_to_zero
    (s : str) (pre : list str) (bs : list block) (out : stdout)
    (i : nat) (head : str) (before after : list str) (l : str) :
  split s LF = pre ++ flatten bs ->
  no_issue_line pre ->
  Forall well_formed bs ->
  bs !! i = Some (head, before ++ l :: after) ->
  is_line l ->
  (exists e, int (strip (drop 5 l)) = Raise e) ->
  Forall (fun l' => not_line l') after ->
  (forall iss d,
     truthy (Some d) = true ->
     loop_body (iss, Some d) l = Return (iss, Some (<["line" := VInt 0]> d)))
  /\ exists iss d,
       _extract_issues (PyStr s) out = (Return iss, out)
       /\ length iss = length bs
       /\ iss !! i = Some d
       /\ d !! "line" = Some (VInt 0).
Proof.
  intros Hs Hpre Hbs Hi Hl [e He] Ha.
  assert (V : line_value l = 0%Z) by (unfold line_value; by rewrite He).
  split.
  - intros iss d T.
    rewrite loop_body_open by auto using line_not_issue.
    unfold update. by rewrite Hl, V.
  - exists (map block_issue bs), (block_issue (head, before ++ l :: after)).
    split; [by apply (extract_issues_blocks s pre)|].
    split; [by rewrite length_map|].
    split.
    + change (map block_issue bs) with (block_issue <$> bs).
      by rewrite list_lookup_fmap, Hi.
    + by rewrite block_issue_line, V.
Qed.

Lemma unparsable_line_defaults_to_zero_witness :
  exists iss d,
    _extract_issues
      (PyStr (unlines [lit "Issue: foo"; lit "Line: notanumber"; []])) []
    = (Return iss, [])
    /\ length iss = 1%nat
    /\ iss !! 0%nat = Some d
    /\ d !! "line" = Some (VInt 0).
Proof.
  refine (proj2 (unparsable_line_defaults_to_zero
    (unlines [lit "Issue: foo"; lit "Line: notanumber"; []])
    [] [(lit "Issue: foo", [lit "Line: notanumber"; []])] []
    0 (lit "Issue: foo") [] [[]] (lit "Line: notanumber")
    _ _ _ _ _ _ _)).
  - vm_compute; reflexivity.
  - constructor.
  - repeat constructor.
  - reflexivity.
  - reflexivity.
  - exists invalid_literal. vm_compute; reflexivity.
  - repeat constructor.
Defined.

(** ** Order, independence and the trailing block *)

(** C5: the issues come out in the order of the [Issue:] lines, one per
    block, and each is computed from the lines of its own block alone: its
    description is that of its own first line, and it has a line or a
    suggestion only if its own block has a [Line:] or [Suggestion:] line. *)
Theorem blocks_in_order_and_independent
    (s : str) (pre : list str) (bs : list block) (out : stdout) :
  split s LF = pre ++ flatten bs ->
  no_issue_line pre ->
  Forall well_formed bs ->
  _extract_issues (PyStr s) out = (Return (map block_issue bs), out)
  /\ (forall i b d,
        bs !! i = Some b -> map block_issue bs !! i = Some d ->
        d !! "description" = Some (VStr (strip (drop 6 b.1)))
        /\ (Forall (fun l => not_line l) b.2 -> d !! "line" = None)
        /\ (Forall (fun l => not_suggestion l) b.2 ->
            d !! "suggestion" = None)).
Proof.
  intros Hs Hpre Hbs. split; [by apply (extract_issues_blocks s pre)|].
  intros i b d Hb Hd. rewrite (lookup_block_issue bs i b d Hb Hd).
  split; [apply block_issue_description|].
  split; [apply block_issue_line_None | apply block_issue_suggestion_None].
Qed.

Lemma blocks_in_order_and_independent_witness :
  _extract_issues (PyStr (unlines (flatten two_blocks))) []
  = (Return
       [ {[ "description" := VStr (lit "a"); "line" := VInt 3 ]};
         {[ "description" := VStr (lit "b");
            "suggestion" := VStr (lit "c") ]} ],
     []).
Proof.
  refine (eq_trans (proj1 (blocks_in_order_and_independent
    (unlines (flatten two_blocks)) [] two_blocks [] _ _ _)) _).
  - vm_compute; reflexivity.
  - constructor.
  - repeat constructor.
  - vm_compute; reflexivity.
Defined.

(** C6: a last block that no [Issue:] line follows is emitted at the end of
    the input, as the last issue. *)
Theorem trailing_block_is_emitted
    (s : str) (before : list str) (head : str) (body : list str)
    (out : stdout) :
  split s LF = before ++ head :: body ->
  startswith head Issue_ = true ->
  no_issue_line body ->
  exists earlier,
    _extract_issues (PyStr s) out
    = (Return (earlier ++ [block_issue (head, body)]), out).
Proof.
  intros Hs Hh Hb.
  destruct (group_spec before) as (E & Hp & Hbs).
  exists (map block_issue (group before).2).
  rewrite (extract_issues_blocks s (group before).1
             ((group before).2 ++ [(head, body)])).
  - by rewrite map_app.
  - rewrite Hs, flatten_app, app_assoc, <- E.
    unfold flatten. simpl. by rewrite app_nil_r.
  - done.
  - apply Forall_app. split; [done|]. by repeat constructor.
Qed.

Lemma trailing_block_is_emitted_witness :
  exists earlier,
    _extract_issues (PyStr (unlines (flatten two_blocks))) []
    = (Return
         (earlier ++ [block_issue (lit "Issue: b", [lit "Suggestion: c"])]),
       []).
Proof.
  apply (trailing_block_is_emitted (unlines (flatten two_blocks))
           [lit "Issue: a"; lit "Line: 3"]).
  - vm_compute; reflexivity.
  - reflexivity.
  - repeat constructor.
Defined.

(** ** Lines that are ignored *)

(** C7: a response without a line that starts with [Issue:] gives no issue:
    the locals are unchanged after every line.  With no accumulator open a
    [Line:] or [Suggestion:] line changes nothing, and a line with none of
    the three prefixes changes nothing in any state; neither raises. *)
Theorem no_issue_line_gives_no_issue (s : str) (out : stdout) :
  no_issue_line (split s LF) ->
  _parse_response (PyStr s) out = (Return (Analysis [] [] 0), out)
  /\ (forall k,
        for_each (take k (split s LF)) loop_body ([], None)
        = Return ([], None))
  /\ (forall iss l,
        startswith l Issue_ = false ->
        loop_body (iss, None) l = Return (iss, None))
  /\ (forall st l,
        startswith l Issue_ = false -> not_line l -> not_suggestion l ->
        loop_body st l = Return st).
Proof.
  intros H. repeat split.
  - unfold _parse_response.
    rewrite (extract_issues_blocks s (split s LF) []);
      [done | by rewrite app_nil_r | done | constructor].
  - intros k. apply for_each_closed. by apply Forall_take.
  - intros iss l. apply loop_body_closed.
  - intros st l. apply loop_body_other.
Qed.

Lemma no_issue_line_gives_no_issue_witness :
  _parse_response
    (PyStr (unlines [lit "Line: 4"; lit "Suggestion: x"; lit "hello"])) []
  = (Return (Analysis [] [] 0), []).
Proof.
  apply (no_issue_line_gives_no_issue
           (unlines [lit "Line: 4"; lit "Suggestion: x"; lit "hello"]) []).
  vm_compute. repeat constructor.
Defined.

Lemma lower_eq (c d : codepoint) :
  lower c = lower d -> c = d \/ c = d + 32 \/ d = c + 32.
Proof. unfold lower. repeat case_match; lia. Qed.

Lemma same_letters_length (v p : str) :
  same_letters v p -> length v = length p.
Proof.
  intros H. apply (f_equal length) in H. by rewrite !length_map in H.
Qed.

(** A proper case variant of a prefix does not match that prefix. *)
Lemma variant_not_prefix (v p r : str) :
  same_letters v p -> v <> p -> startswith (v ++ r) p = false.
Proof.
  intros Hs Hne. destruct (startswith (v ++ r) p) eqn:E; [|done].
  apply startswith_inv in E as [r' E].
  apply app_inj_1 in E as [E _]; [done | by apply same_letters_length].
Qed.

(** A string that starts with another letter matches none of a prefix's
    case variants. *)
Lemma variant_other_prefix (v r : str) (p0 q0 : codepoint) (p q : str) :
  same_letters v (p0 :: p) ->
  q0 <> p0 -> q0 <> p0 + 32 -> q0 + 32 <> p0 ->
  startswith (v ++ r) (q0 :: q) = false.
Proof.
  intros Hs H1 H2 H3. destruct v as [|c v]; [done|].
  injection Hs as Hc _. apply lower_eq in Hc.
  apply startswith_head. lia.
Qed.

(** C8: the prefixes are matched exactly.  A line that begins with a white
    space character, or with one of the three prefixes in another letter
    case, matches none of them, and the iteration that reads it leaves the
    locals as they are. *)
Theorem prefix_match_is_exact (line : str) (st : locals) :
  (exists c r, line = c :: r /\ isspace c = true)
  \/ (exists p v r,
        (p = Issue_ \/ p = Line_ \/ p = Suggestion_)
        /\ line = v ++ r /\ same_letters v p /\ v <> p) ->
  startswith line Issue_ = false
  /\ startswith line Line_ = false
  /\ startswith line Suggestion_ = false
  /\ loop_body st line = Return st.
Proof.
  intros H.
  assert (G : startswith line Issue_ = false
              /\ startswith line Line_ = false
              /\ startswith line Suggestion_ = false).
  { destruct H as [(c & r & -> & Hc) | (p & v & r & Hp & -> & Hs & Hne)].
    - repeat split; apply startswith_head; intros ->; by vm_compute in Hc.
    - destruct Hp as [-> | [-> | ->]]; repeat split;
        first [ by apply variant_not_prefix
              | by eapply variant_other_prefix; [exact Hs | | | ] ]. }
  destruct G as (G1 & G2 & G3). by rewrite loop_body_other.
Qed.

Lemma prefix_match_is_exact_witness :
  (forall st, loop_body st (lit "  Issue: indented") = Return st)
  /\ (forall st, loop_body st (lit "issue: lower case") = Return st)
  /\ (forall st, loop_body st (lit "LINE: 7") = Return st)
  /\ (forall st, loop_body st (lit "suggestion: none") = Return st).
Proof.
  repeat split; intros st.
  - apply (prefix_match_is_exact (lit "  Issue: indented") st).
    left. exists 32, (lit " Issue: indented"). by split.
  - apply (prefix_match_is_exact (lit "issue: lower case") st).
    right. exists Issue_, (lit "issue:"), (lit " lower case").
    repeat split; [by left | discriminate].
  - apply (prefix_match_is_exact (lit "LINE: 7") st).
    right. exists Line_, (lit "LINE:"), (lit " 7").
    repeat split; [by right; left | discriminate].
  - apply (prefix_match_is_exact (lit "suggestion: none") st).
    right. exists Suggestion_, (lit "suggestion:"), (lit " none").
    repeat split; [by right; right | discriminate].
Defined.

(** ** Optional and repeated fields *)

(** C9: the issue of a block has no "line" key exactly when the block has
    no [Line:] line after its [Issue:] line; a block with such a line has the
    key, and no default stands in for a missing one. *)
Theorem line_key_only_from_line
    (s : str) (pre : list str) (bs : list block) (out : stdout) :
  split s LF = pre ++ flatten bs ->
  no_issue_line pre ->
  Forall well_formed bs ->
  exists iss,
    _extract_issues (PyStr s) out = (Return iss, out)
    /\ length iss = length bs
    /\ forall i b d,
         bs !! i = Some b -> iss !! i = Some d ->
         (d !! "line" = None <-> Forall (fun l => not_line l) b.2)
         /\ (is_Some (d !! "line") <-> Exists (fun l => is_line l) b.2).
Proof.
  intros Hs Hpre Hbs. exists (map block_issue bs).
  split; [by apply (extract_issues_blocks s pre)|].
  split; [by rewrite length_map|].
  intros i b d Hb Hd. rewrite (lookup_block_issue bs i b d Hb Hd).
  pose proof (block_issue_line_None b) as N. split; [done|].
  rewrite <- not_eq_None_Some, N. split.
  - intros H. apply not_Forall_Exists in H; [|solve_decision].
    eapply Exists_impl; [exact H|]. intros l Hl. simpl in Hl.
    by destruct (startswith l Line_).
  - intros H F. apply Exists_exists in H as (l & Hin & Hl).
    rewrite Forall_forall in F. specialize (F l Hin). congruence.
Qed.

Lemma line_key_only_from_line_witness :
  exists iss,
    _extract_issues (PyStr (unlines (flatten two_blocks))) []
    = (Return iss, [])
    /\ length iss = 2%nat
    /\ forall i b d,
         two_blocks !! i = Some b -> iss !! i = Some d ->
         (d !! "line" = None <-> Forall (fun l => not_line l) b.2)
         /\ (is_Some (d !! "line") <-> Exists (fun l => is_line l) b.2).
Proof.
  apply (line_key_only_from_line (unlines (flatten two_blocks)) []
           two_blocks []).
  - vm_compute; reflexivity.
  - constructor.
  - repeat constructor.
Defined.

(** C10: when a block has several [Line:] lines, or several [Suggestion:]
    lines, the issue carries the value of the last one. *)
Theorem last_line_and_suggestion_win
    (s : str) (pre : list str) (bs : list block) (out : stdout) :
  split s LF = pre ++ flatten bs ->
  no_issue_line pre ->
  Forall well_formed bs ->
  exists iss,
    _extract_issues (PyStr s) out = (Return iss, out)
    /\ length iss = length bs
    /\ forall i head before l after d,
         bs !! i = Some (head, before ++ l :: after) ->
         iss !! i = Some d ->
         (is_line l -> Forall (fun l' => not_line l') after ->
          d !! "line" = Some (VInt (line_value l)))
         /\ (is_suggestion l ->
             Forall (fun l' => not_suggestion l') after ->
             d !! "suggestion" = Some (VStr (strip (drop 11 l)))).
Proof.
  intros Hs Hpre Hbs. exists (map block_issue bs).
  split; [by apply (extract_issues_blocks s pre)|].
  split; [by rewrite length_map|].
  intros i head before l after d Hb Hd.
  rewrite (lookup_block_issue bs i _ d Hb Hd).
  split; intros Hl Ha;
    [by apply block_issue_line | by apply block_issue_suggestion].
Qed.

Lemma last_line_and_suggestion_win_witness :
  _extract_issues (PyStr (unlines (flatten repeated_fields))) []
  = (Return
       [ {[ "description" := VStr (lit "a"); "line" := VInt 2;
            "suggestion" := VStr (lit "y") ]} ],
     [])
  /\ exists iss,
       _extract_issues (PyStr (unlines (flatten repeated_fields))) []
       = (Return iss, [])
       /\ length iss = 1%nat
       /\ forall i head before l after d,
            repeated_fields !! i = Some (head, before ++ l :: after) ->
            iss !! i = Some d ->
            (is_line l -> Forall (fun l' => not_line l') after ->
             d !! "line" = Some (VInt (line_value l)))
            /\ (is_suggestion l ->
                Forall (fun l' => not_suggestion l') after ->
                d !! "suggestion" = Some (VStr (strip (drop 11 l)))).
Proof.
  split; [vm_compute; reflexivity|].
  apply (last_line_and_suggestion_win (unlines (flatten repeated_fields)) []
           repeated_fields []).
  - vm_compute; reflexivity.
  - constructor.
  - repeat constructor.
Defined.

(** ** White space *)

Lemma blank_reverse (ws : str) : blank ws -> blank (reverse ws).
Proof. unfold blank. by rewrite Forall_reverse. Qed.

Lemma lstrip_blank_app (ws x : str) : blank ws -> lstrip (ws ++ x) = lstrip x.
Proof. induction 1 as [|c ws Hc _ IH]; [done|]. simpl. by rewrite Hc. Qed.

Lemma lstrip_blank (ws : str) : blank ws -> lstrip ws = [].
Proof. intros H. by rewrite <- (app_nil_r ws), lstrip_blank_app. Qed.

Lemma lstrip_split (s : str) : exists ws, s = ws ++ lstrip s /\ blank ws.
Proof.
  induction s as [|c s (ws & E & B)]; [by exists []; split; [|constructor]|].
  simpl. destruct (isspace c) eqn:Hc.
  - exists (c :: ws). split; [by rewrite E at 1 | by constructor].
  - exists []. split; [done | constructor].
Qed.

Lemma lstrip_head (s : str) c : head (lstrip s) = Some c -> isspace c = false.
Proof.
  induction s as [|d s IH]; [done|]. simpl.
  destruct (isspace d) eqn:Hd; [exact IH|]. simpl. by intros [= <-].
Qed.

Lemma lstrip_app (x y : str) :
  lstrip (x ++ y) = match lstrip x with [] => lstrip y | _ => lstrip x ++ y end.
Proof.
  induction x as [|c x IH]; [reflexivity|]. simpl.
  by destruct (isspace c).
Qed.

Lemma rstrip_split (t : str) : exists ws, t = rstrip t ++ ws /\ blank ws.
Proof.
  destruct (lstrip_split (reverse t)) as (ws & E & B).
  exists (reverse ws). split; [|by apply blank_reverse].
  unfold rstrip. by rewrite <- reverse_app, <- E, reverse_involutive.
Qed.

Lemma rstrip_last (t : str) c : last (rstrip t) = Some c -> isspace c = false.
Proof. unfold rstrip. rewrite last_reverse. apply lstrip_head. Qed.

Lemma rstrip_head (t : str) c : head (rstrip t) = Some c -> head t = Some c.
Proof.
  destruct (rstrip_split t) as (ws & E & _). rewrite E at 2.
  by destruct (rstrip t).
Qed.

Lemma rstrip_blank_app (y ws : str) : blank ws -> rstrip (y ++ ws) = rstrip y.
Proof.
  intros B. unfold rstrip.
  by rewrite reverse_app, lstrip_blank_app by by apply blank_reverse.
Qed.

(** [strip] leaves no white space at either end. *)
Lemma strip_trimmed (s : str) : trimmed (strip s).
Proof.
  split; intros c H.
  - by apply (lstrip_head s), rstrip_head.
  - by apply (rstrip_last (lstrip s)).
Qed.

(** White space at the end of a string does not change what [strip] gives. *)
Lemma strip_blank_app (x ws : str) : blank ws -> strip (x ++ ws) = strip x.
Proof.
  intros B. unfold strip. rewrite lstrip_app.
  destruct (lstrip x) as [|c y] eqn:E.
  - by rewrite lstrip_blank.
  - by rewrite rstrip_blank_app.
Qed.

Lemma strip_blank (ws : str) : blank ws -> strip ws = [].
Proof. intros B. unfold strip. by rewrite lstrip_blank. Qed.

(** ** The shape of the issues *)

Lemma shaped_new_issue (head : str) : shaped (new_issue head).
Proof.
  unfold shaped, new_issue. repeat split.
  - exists (strip (drop 6 head)).
    split; [apply lookup_singleton_eq | apply strip_trimmed].
  - intros v. by rewrite lookup_singleton_ne.
  - intros v. by rewrite lookup_singleton_ne.
  - intros k [v Hv]. apply lookup_singleton_Some in Hv as [<- _]. by left.
Qed.

Lemma shaped_update (d : dict) (l : str) : shaped d -> shaped (update d l).
Proof.
  intros (Hd & Hl & Hs & Hk). unfold update.
  destruct (startswith l Line_); [|destruct (startswith l Suggestion_)];
    [| |done]; repeat split.
  - by rewrite lookup_insert_ne.
  - intros v. rewrite lookup_insert_eq. intros [= <-]. by eexists.
  - intros v. rewrite lookup_insert_ne by done. apply Hs.
  - intros k Hin. apply lookup_insert_is_Some in Hin as [<- | [_ Hin]];
      [by right; left | by apply Hk].
  - by rewrite lookup_insert_ne.
  - intros v. rewrite lookup_insert_ne by done. apply Hl.
  - intros v. rewrite lookup_insert_eq. intros [= <-].
    eexists. split; [done | apply strip_trimmed].
  - intros k Hin. apply lookup_insert_is_Some in Hin as [<- | [_ Hin]];
      [by right; right | by apply Hk].
Qed.

Lemma shaped_block_issue (b : block) : shaped (block_issue b).
Proof.
  unfold block_issue. generalize (shaped_new_issue b.1).
  generalize (new_issue b.1). induction b.2 as [|l body IH]; intros d H; [done|].
  simpl. by apply IH, shaped_update.
Qed.

(** For every response the scan returns, and every issue is shaped. *)
Lemma extract_issues_shaped (response : object) (out : stdout) :
  exists iss out',
    _extract_issues response out = (Return iss, out') /\ Forall shaped iss.
Proof.
  unfold _extract_issues. destruct response as [s|b|].
  - rewrite try_block_str. eexists _, _. split; [done|].
    apply Forall_forall. intros d Hd.
    apply list_elem_of_In, in_map_iff in Hd as (b & <- & _).
    apply shaped_block_issue.
  - cbn. eexists _, _. split; [done | constructor].
  - cbn. eexists _, _. split; [done | constructor].
Qed.

(** X2: every issue the scan returns has a "description" that is a string;
    a "line", when present, is an integer and a "suggestion", when present,
    a string; an issue has no other key. *)
Theorem issues_have_typed_fields (response : object) (out : stdout) :
  exists iss out',
    _extract_issues response out = (Return iss, out')
    /\ Forall (fun d : dict =>
         (exists t, d !! "description" = Some (VStr t))
         /\ (forall v, d !! "line" = Some v -> exists n, v = VInt n)
         /\ (forall v, d !! "suggestion" = Some v -> exists t, v = VStr t)
         /\ (forall k, is_Some (d !! k) ->
             k = "description" \/ k = "line" \/ k = "suggestion")) iss.
Proof.
  destruct (extract_issues_shaped response out) as (iss & out' & E & H).
  exists iss, out'. split; [done|].
  eapply Forall_impl; [exact H|]. intros d ((t & Ht & _) & Hl & Hs & Hk).
  repeat split.
  - by exists t.
  - done.
  - intros v Hv. destruct (Hs v Hv) as (u & -> & _). by exists u.
  - done.
Qed.

(** X7: no string stored in an issue starts or ends with white space. *)
Theorem issue_strings_are_trimmed (response : object) (out : stdout) :
  exists iss out',
    _extract_issues response out = (Return iss, out')
    /\ Forall (fun d : dict =>
         forall k t, d !! k = Some (VStr t) ->
           (forall c, head t = Some c -> isspace c = false)
           /\ (forall c, last t = Some c -> isspace c = false)) iss.
Proof.
  destruct (extract_issues_shaped response out) as (iss & out' & E & H).
  exists iss, out'. split; [done|].
  eapply Forall_impl; [exact H|]. intros d ((u & Hu & Tu) & Hl & Hs & Hk) k t Hkt.
  destruct (Hk k) as [-> | [-> | ->]]; [by eexists | | |].
  - rewrite Hu in Hkt. by injection Hkt as <-.
  - by destruct (Hl _ Hkt).
  - destruct (Hs _ Hkt) as (t' & [= <-] & T). exact T.
Qed.

(** ** Issues and [Issue:] lines *)

Lemma group_heads (ls : list str) :
  map fst (group ls).2 = filter (fun l => startswith l Issue_ = true) ls.
Proof.
  induction ls as [|l ls IH]; [done|]. simpl.
  destruct (group ls) as [pre bs]. simpl in IH.
  destruct (startswith l Issue_) eqn:Hl; simpl.
  - rewrite filter_cons_True by done. by rewrite IH.
  - rewrite filter_cons_False by congruence. done.
Qed.

(** X1: a [str] response is scanned without printing, and its issues
    answer its [Issue:] lines one for one: as many issues as such lines,
    and the descriptions are the stripped rests of those lines, in order. *)
Theorem issues_answer_issue_lines (s : str) (out : stdout) :
  exists iss,
    _extract_issues (PyStr s) out = (Return iss, out)
    /\ length iss
       = length (filter (fun l => startswith l Issue_ = true) (split s LF))
    /\ map (fun d : dict => d !! "description") iss
       = map (fun l => Some (VStr (strip (drop 6 l))))
           (filter (fun l => startswith l Issue_ = true) (split s LF)).
Proof.
  exists (map block_issue (group (split s LF)).2).
  assert (M : map (fun d : dict => d !! "description")
                (map block_issue (group (split s LF)).2)
              = map (fun l => Some (VStr (strip (drop 6 l))))
                  (filter (fun l => startswith l Issue_ = true)
                     (split s LF))).
  { rewrite <- group_heads, !map_map. apply map_ext.
    intros b. apply block_issue_description. }
  split; [unfold _extract_issues; by rewrite try_block_str|].
  split; [|exact M].
  apply (f_equal length) in M. rewrite !length_map in M.
  by rewrite length_map.
Qed.


(** ** The entry point *)

(** X10: [analyze] raises exactly what the chain raises, and what the chain
    returns is parsed without an exception, whatever object it is. *)
Theorem analyze_raises_only_from_chain
    (ainvoke : str -> stdout -> result object * stdout)
    (diff : str) (out : stdout) :
  (forall e out',
     analyze ainvoke diff out = (Raise e, out')
     <-> ainvoke diff out = (Raise e, out'))
  /\ (forall response out',
        ainvoke diff out = (Return response, out') ->
        exists iss out'',
          _extract_issues response out' = (Return iss, out'')
          /\ analyze ainvoke diff out = (Return (Analysis iss [] 0), out'')).
Proof.
  unfold analyze. split.
  - intros e out'. destruct (ainvoke diff out) as [[response|e0] o];
      lazy beta iota; [|split; intros [= -> ->]; reflexivity].
    destruct (extract_issues_returns response o) as (iss & o' & E).
    unfold _parse_response. rewrite E. cbn. split; intros [=].
  - intros response out' ->.
    destruct (extract_issues_returns response out') as (iss & o' & E).
    exists iss, o'. split; [done|]. unfold _parse_response. by rewrite E.
Qed.

(** ** White space at the end of a line *)

Lemma prefixes_no_space :
  Forall (fun c => isspace c = false) Issue_
  /\ Forall (fun c => isspace c = false) Line_
  /\ Forall (fun c => isspace c = false) Suggestion_.
Proof. repeat split; repeat constructor. Qed.

Lemma startswith_padded (l ws p : str) :
  Forall (fun c => isspace c = false) p ->
  blank ws ->
  startswith (l ++ ws) p = startswith l p.
Proof.
  intros Hp B. revert l. induction Hp as [|c p Hc _ IH]; intros l; [done|].
  destruct l as [|d l].
  - destruct B as [|w ws Hw _]; [done|].
    apply startswith_head. intros ->. congruence.
  - by rewrite <- app_comm_cons, !startswith_cons, IH.
Qed.

(** White space at the end of a line does not change what the iteration
    does with it. *)
Lemma loop_body_padded (st : locals) (l ws : str) :
  blank ws -> loop_body st (l ++ ws) = loop_body st l.
Proof.
  intros B. destruct st as [iss cur]. unfold loop_body.
  fold Issue_ Line_ Suggestion_.
  destruct prefixes_no_space as (P1 & P2 & P3).
  rewrite !(startswith_padded l ws) by done.
  destruct (startswith l Issue_) eqn:H1.
  { apply startswith_inv in H1 as [r ->]. rewrite <- app_assoc.
    change (drop 6 (Issue_ ++ r ++ ws)) with (r ++ ws).
    change (drop 6 (Issue_ ++ r)) with r. by rewrite strip_blank_app. }
  destruct (startswith l Line_) eqn:H2.
  { apply startswith_inv in H2 as [r ->]. rewrite <- app_assoc.
    change (drop 5 (Line_ ++ r ++ ws)) with (r ++ ws).
    change (drop 5 (Line_ ++ r)) with r. by rewrite strip_blank_app. }
  destruct (startswith l Suggestion_) eqn:H3; [|done].
  apply startswith_inv in H3 as [r ->]. rewrite <- app_assoc.
  change (drop 11 (Suggestion_ ++ r ++ ws)) with (r ++ ws).
  change (drop 11 (Suggestion_ ++ r)) with r. by rewrite strip_blank_app.
Qed.

Lemma for_each_padded (ls' ls : list str) (st : locals) :
  Forall2 padded ls' ls ->
  for_each ls' loop_body st = for_each ls loop_body st.
Proof.
  intros H. revert st.
  induction H as [|l' l ls' ls (ws & -> & B) _ IH]; intros st; [done|].
  rewrite !for_each_cons, loop_body_padded by done.
  destruct (loop_body st l) as [st'|e]; [|done].
  rewrite !bind_Return. apply IH.
Qed.

(** X5: white space at the ends of the lines, such as the carriage returns
    of a response with CRLF line ends, does not change the result. *)
Theorem trailing_white_space_is_ignored (s' s : str) (out : stdout) :
  Forall2 padded (split s' LF) (split s LF) ->
  _extract_issues (PyStr s') out = _extract_issues (PyStr s) out.
Proof.
  intros H. unfold _extract_issues, try_block, object_split.
  rewrite !bind_Return. by rewrite (for_each_padded _ _ _ H).
Qed.

Lemma trailing_white_space_is_ignored_witness :
  _extract_issues
    (PyStr (unlines [lit "Issue: a" ++ [CR]; lit "Line: 3" ++ [CR]; []])) []
  = _extract_issues (PyStr (unlines [lit "Issue: a"; lit "Line: 3"; []])) [].
Proof.
  apply trailing_white_space_is_ignored. vm_compute.
  repeat constructor; [exists [CR] | exists [CR] | exists []];
    (split; [reflexivity | repeat constructor]).
Defined.

(** X8: a field line with nothing but white space after its prefix stores
    the default: an [Issue:] line opens an issue with the empty
    description, a [Line:] line stores 0 and a [Suggestion:] line the empty
    string. *)
Theorem blank_rest_stores_default
    (ws : str) (iss : list dict) (d : dict) :
  blank ws ->
  truthy (Some d) = true ->
  loop_body (iss, Some d) (lit "Issue:" ++ ws)
  = Return (iss ++ [d], Some {[ "description" := VStr [] ]})
  /\ loop_body (iss, Some d) (lit "Line:" ++ ws)
     = Return (iss, Some (<["line" := VInt 0]> d))
  /\ loop_body (iss, Some d) (lit "Suggestion:" ++ ws)
     = Return (iss, Some (<["suggestion" := VStr []]> d)).
Proof.
  intros B T. rewrite !loop_body_padded by done. repeat split.
  - rewrite (loop_body_issue iss (Some d) (lit "Issue:")) by done.
    unfold finish. cbn [fst snd]. by rewrite T.
  - by rewrite (loop_body_open iss d (lit "Line:")).
  - by rewrite (loop_body_open iss d (lit "Suggestion:")).
Qed.

Lemma blank_rest_stores_default_witness :
  loop_body ([], Some {[ "description" := VStr (lit "a") ]})
    (lit "Line:" ++ lit "  ")
  = Return ([], Some {[ "description" := VStr (lit "a"); "line" := VInt 0 ]}).
Proof.
  refine (eq_trans (proj1 (proj2 (blank_rest_stores_default (lit "  ") []
    {[ "description" := VStr (lit "a") ]} _ _))) _).
  - repeat constructor.
  - vm_compute; reflexivity.
  - vm_compute; reflexivity.
Defined.

(** ** Lines that match no prefix *)

Lemma for_each_relevant (ls : list str) (st : locals) :
  for_each (filter (fun l => relevant l = true) ls) loop_body st
  = for_each ls loop_body st.
Proof.
  revert st. induction ls as [|l ls IH]; intros st; [done|].
  destruct (relevant l) eqn:R.
  - rewrite filter_cons_True, !for_each_cons by done.
    destruct (loop_body st l) as [st'|e]; [|done].
    rewrite !bind_Return. apply IH.
  - rewrite filter_cons_False, for_each_cons by congruence.
    unfold relevant in R. apply orb_false_elim in R as [R R3].
    apply orb_false_elim in R as [R1 R2].
    by rewrite loop_body_other, bind_Return.
Qed.

(** X4: the result depends only on the lines that start with one of the
    three prefixes: two responses with the same such lines, in the same
    order, give the same result. *)
Theorem only_prefixed_lines_count (s1 s2 : str) (out : stdout) :
  filter (fun l => relevant l = true) (split s1 LF)
  = filter (fun l => relevant l = true) (split s2 LF) ->
  _extract_issues (PyStr s1) out = _extract_issues (PyStr s2) out.
Proof.
  intros H. unfold _extract_issues, try_block, object_split.
  rewrite !bind_Return.
  rewrite <- (for_each_relevant (split s1 LF)).
  rewrite <- (for_each_relevant (split s2 LF)). by rewrite H.
Qed.

Lemma only_prefixed_lines_count_witness :
  _extract_issues
    (PyStr (unlines [lit "Here is my review."; lit "Issue: a"; [];
                     lit "  Line: 9"; lit "Line: 3"])) []
  = _extract_issues (PyStr (unlines [lit "Issue: a"; lit "Line: 3"])) [].
Proof.
  apply only_prefixed_lines_count. vm_compute; reflexivity.
Defined.

(** ** Responses put together *)

Lemma split_cons (c : codepoint) (r : str) (sep : codepoint) :
  split (c :: r) sep
  = if c =? sep then [] :: split r sep
    else match split r sep with
         | piece :: pieces => (c :: piece) :: pieces
         | [] => [[c]]
         end.
Proof. reflexivity. Qed.

Lemma split_nonempty (s : str) (sep : codepoint) : split s sep <> [].
Proof.
  destruct s as [|c r]; [done|]. rewrite split_cons.
  destruct (c =? sep); [done|]. by destruct (split r sep).
Qed.

(** Splitting goes through a separator. *)
Lemma split_app_sep (s1 s2 : str) (sep : codepoint) :
  split (s1 ++ sep :: s2) sep = split s1 sep ++ split s2 sep.
Proof.
  induction s1 as [|c r IH].
  - change ([] ++ sep :: s2) with (sep :: s2).
    by rewrite split_cons, N.eqb_refl.
  - rewrite <- app_comm_cons, !split_cons, IH.
    destruct (c =? sep); [done|].
    pose proof (split_nonempty r sep). by destruct (split r sep).
Qed.

(** The first line of a string that starts with a prefix starts with it. *)
Lemma startswith_first_line (s p : str) :
  Forall (fun c => c <> LF) p ->
  startswith s p = true ->
  exists h rest, split s LF = h :: rest /\ startswith h p = true.
Proof.
  intros Hp H. apply startswith_inv in H as [r ->].
  induction Hp as [|c p Hc _ (h & rest & E & Hh)].
  - pose proof (split_nonempty r LF).
    destruct (split ([] ++ r) LF) as [|h rest] eqn:E; [done|]. by exists h, rest.
  - rewrite <- app_comm_cons, split_cons, E.
    apply N.eqb_neq in Hc as ->. exists (c :: h), rest.
    split; [done|]. by rewrite startswith_cons, N.eqb_refl.
Qed.

Lemma group_issue_first (h : str) (rest : list str) :
  startswith h Issue_ = true -> (group (h :: rest)).1 = [].
Proof. intros H. simpl. destruct (group rest). by rewrite H. Qed.

(** X3: when the second of two responses starts with [Issue:], the issues
    of their concatenation, with a newline between them, are the issues of
    the first followed by the issues of the second. *)
Theorem issues_of_concatenation (s1 s2 : str) (out : stdout) :
  startswith s2 Issue_ = true ->
  exists iss1 iss2,
    _extract_issues (PyStr s1) out = (Return iss1, out)
    /\ _extract_issues (PyStr s2) out = (Return iss2, out)
    /\ _extract_issues (PyStr (s1 ++ LF :: s2)) out
       = (Return (iss1 ++ iss2), out).
Proof.
  intros H.
  destruct (startswith_first_line s2 Issue_) as (h & rest & E2 & Hh);
    [repeat constructor; discriminate | done |].
  destruct (group_spec (split s1 LF)) as (G1 & P1 & B1).
  destruct (group_spec (split s2 LF)) as (G2 & P2 & B2).
  assert (Z : (group (split s2 LF)).1 = [])
    by (rewrite E2; by apply group_issue_first).
  rewrite Z in G2. simpl in G2.
  exists (map block_issue (group (split s1 LF)).2),
         (map block_issue (group (split s2 LF)).2).
  split; [by apply (extract_issues_blocks s1 (group (split s1 LF)).1)|].
  split; [apply (extract_issues_blocks s2 []); [done | constructor | done]|].
  rewrite <- map_app.
  apply (extract_issues_blocks _ (group (split s1 LF)).1); [|done|].
  - rewrite split_app_sep, flatten_app, app_assoc. by rewrite <- G1, <- G2.
  - by apply Forall_app.
Qed.

Lemma issues_of_concatenation_witness :
  exists iss1 iss2,
    _extract_issues (PyStr (lit "Issue: a")) [] = (Return iss1, [])
    /\ _extract_issues (PyStr (lit "Issue: b")) [] = (Return iss2, [])
    /\ _extract_issues (PyStr (lit "Issue: a" ++ LF :: lit "Issue: b")) []
       = (Return (iss1 ++ iss2), []).
Proof.
  apply (issues_of_concatenation (lit "Issue: a") (lit "Issue: b") []).
  reflexivity.
Defined.

(** X6: text added after a response, on new lines, leaves the issues before
    its last one as they are, keeps the description of every issue, and
    takes no issue away. *)
Theorem earlier_issues_are_final (s1 s2 : str) (out : stdout) :
  exists iss1 iss12,
    _extract_issues (PyStr s1) out = (Return iss1, out)
    /\ _extract_issues (PyStr (s1 ++ LF :: s2)) out = (Return iss12, out)
    /\ (length iss1 <= length iss12)%nat
    /\ (forall k d,
          (S k < length iss1)%nat -> iss1 !! k = Some d ->
          iss12 !! k = Some d)
    /\ (forall k d,
          iss1 !! k = Some d ->
          exists d', iss12 !! k = Some d'
                     /\ d' !! "description" = d !! "description").
Proof.
  destruct (group_spec (split s1 LF)) as (G1 & P1 & B1).
  destruct (group_spec (split s2 LF)) as (G2 & P2 & B2).
  destruct (group (split s1 LF)) as [pre1 bs1].
  destruct (group (split s2 LF)) as [pre2 bs2]. simpl in *.
  exists (map block_issue bs1).
  destruct bs1 as [|[h body] bs1 _] using rev_ind.
  - exists (map block_issue bs2).
    split; [by apply (extract_issues_blocks s1 pre1)|].
    split.
    { apply (extract_issues_blocks _ (pre1 ++ pre2)); [|by apply Forall_app|done].
      rewrite split_app_sep, G1, G2. unfold flatten. simpl.
      by rewrite app_nil_r, app_assoc. }
    simpl. repeat split; [lia | intros; lia | done].
  - exists (map block_issue (bs1 ++ (h, body ++ pre2) :: bs2)).
    split; [by apply (extract_issues_blocks s1 pre1)|].
    apply Forall_app in B1 as [B1 Hb].
    apply Forall_singleton in Hb as [Hh Hb]. simpl in Hh, Hb.
    split.
    { apply (extract_issues_blocks _ pre1); [|done|].
      - rewrite split_app_sep, G1, G2, !flatten_app. unfold flatten. simpl.
        by rewrite !app_nil_r, <- !app_assoc.
      - apply Forall_app. split; [done|]. constructor; [|done].
        split; [done|]. by apply Forall_app. }
    rewrite !map_app, !length_app. simpl.
    repeat split.
    + lia.
    + intros k d Hk Hd. rewrite length_map in Hk.
      rewrite lookup_app_l in Hd by (rewrite length_map; lia).
      by rewrite lookup_app_l by (rewrite length_map; lia).
    + intros k d Hd.
      destruct (decide (k < length bs1)%nat) as [Hk|Hk].
      * rewrite lookup_app_l in Hd by (by rewrite length_map).
        exists d. by rewrite lookup_app_l by (by rewrite length_map).
      * assert (k = length (map block_issue bs1)) as ->.
        { apply lookup_lt_Some in Hd. rewrite length_app, length_map in Hd.
          rewrite length_map. simpl in Hd. lia. }
        rewrite list_lookup_middle in Hd by done. injection Hd as <-.
        exists (block_issue (h, body ++ pre2)).
        split; [by rewrite list_lookup_middle|].
        by rewrite !block_issue_description.
Qed.
